(** * A shallow embedding of [src/fs.js]: the Node-style facade over the
    expo-file-system host API.

    The host service ([import * as FileSystem from 'expo-file-system']) is
    not part of this module: it is taken as a record [Host] of asynchronous
    primitives over an abstract host state [σ].  An asynchronous call that
    the caller awaits is a state transformer that either resolves ([Ok]) or
    rejects ([Err]).  The two "synchronous" wrappers are modelled with the
    JavaScript run-to-completion rule: the body runs on a frame holding its
    local variable and the job queue, and the registered [.then]/[.catch]
    handlers run only after the body has returned. *)

From Stdlib Require Import String Ascii List Bool Arith Lia ZArith.
Import ListNotations.
Open Scope string_scope.
#[local] Set Warnings "-register-all".

(** ** JavaScript values and errors *)

Inductive jsval : Type :=
| JUndef
| JNull
| JBool (b : bool)
| JNum (z : Z)
| JStr (s : string)
| JObj (fields : list (string * jsval)).

(** An [Error] object: its [name] ("Error", "TypeError", ...) and [message]. *)
Record jserror : Type := mkError { err_name : string; err_message : string }.

(** [new Error(msg)] *)
Definition new_Error (msg : string) : jserror := mkError "Error" msg.

(** JavaScript truthiness, used by [||]. *)
Definition truthy (v : jsval) : bool :=
  match v with
  | JUndef | JNull => false
  | JBool b => b
  | JNum z => negb (Z.eqb z 0)
  | JStr s => negb (String.eqb s "")
  | JObj _ => true
  end.

(** Own-property lookup on an object literal; [undefined] when absent. *)
Fixpoint assoc (k : string) (fs : list (string * jsval)) : jsval :=
  match fs with
  | [] => JUndef
  | (k', v) :: r => if String.eqb k k' then v else assoc k r
  end.

(** [o[k]] where [o] is known to be an object (no [TypeError] possible). *)
Definition field (o : jsval) (k : string) : jsval :=
  match o with
  | JObj fs => assoc k fs
  | _ => JUndef
  end.

Inductive res (A : Type) : Type :=
| Ok (a : A)
| Err (e : jserror).
Arguments Ok {A} a.
Arguments Err {A} e.

(** [o.k]: throws a [TypeError] on [null] and [undefined]; none of the
    property names read by this module lives on a primitive's prototype. *)
Definition getprop (o : jsval) (k : string) : res jsval :=
  match o with
  | JUndef => Err (mkError "TypeError"
                 ("Cannot read properties of undefined (reading '" ++ k ++ "')"))
  | JNull => Err (mkError "TypeError"
                 ("Cannot read properties of null (reading '" ++ k ++ "')"))
  | JObj fs => Ok (assoc k fs)
  | _ => Ok JUndef
  end.

(** [String.prototype.toUpperCase] on the ASCII letters. *)
Definition ascii_upper (c : ascii) : ascii :=
  let n := nat_of_ascii c in
  if ((97 <=? n) && (n <=? 122))%nat then ascii_of_nat (n - 32)%nat else c.

Fixpoint toUpperCase (s : string) : string :=
  match s with
  | EmptyString => EmptyString
  | String c r => String (ascii_upper c) (toUpperCase r)
  end.

(** ** The host: expo-file-system *)

(** [FileSystem.EncodingType]: the string enum
    [enum EncodingType { UTF8 = 'utf8', Base64 = 'base64' }]. *)
Definition EncodingType : jsval :=
  JObj [("UTF8", JStr "utf8"); ("Base64", JStr "base64")].

(** An awaited asynchronous host call over a host state. *)
Definition M (σ A : Type) : Type := σ -> res A * σ.

(** The primitives of the host the module calls.  Object arguments such as
    [{ from, to }] are flattened into parameters; [{ encoding: e }],
    [{ intermediates: v }] and the info options keep the JS value passed. *)
Record Host (σ : Type) : Type := {
  readAsStringAsync : string -> jsval -> M σ string;          (* (path, encoding) *)
  writeAsStringAsync : string -> string -> jsval -> M σ unit; (* (path, data, encoding) *)
  deleteAsync : string -> M σ unit;
  getInfoAsync : string -> jsval -> M σ jsval;                (* (path, options) *)
  moveAsync : string -> string -> M σ unit;                   (* { from, to } *)
  makeDirectoryAsync : string -> jsval -> M σ unit;           (* (path, intermediates) *)
  readDirectoryAsync : string -> M σ (list string);
  copyAsync : string -> string -> M σ unit                    (* { from, to } *)
}.
Arguments readAsStringAsync {σ} h _ _ _.
Arguments writeAsStringAsync {σ} h _ _ _ _.
Arguments deleteAsync {σ} h _ _.
Arguments getInfoAsync {σ} h _ _ _.
Arguments moveAsync {σ} h _ _ _.
Arguments makeDirectoryAsync {σ} h _ _ _.
Arguments readDirectoryAsync {σ} h _ _.
Arguments copyAsync {σ} h _ _ _.

(** ** The awaited-call monad *)

Definition ret {σ A} (a : A) : M σ A := fun s => (Ok a, s).
Definition throw {σ A} (e : jserror) : M σ A := fun s => (Err e, s).
Definition bind {σ A B} (m : M σ A) (k : A -> M σ B) : M σ B :=
  fun s => match m s with
           | (Ok a, s') => k a s'
           | (Err e, s') => (Err e, s')
           end.
Definition lift {σ A} (r : res A) : M σ A := fun s => (r, s).

(** [try { m } catch (error) { h(error) }] *)
Definition try_catch {σ A} (m : M σ A) (h : jserror -> M σ A) : M σ A :=
  fun s => match m s with
           | (Ok a, s') => (Ok a, s')
           | (Err e, s') => h e s'
           end.

Notation "x <- m ;; k" := (bind m (fun x => k))
  (at level 61, m at next level, right associativity).

(** The encoding resolution
    [FileSystem.EncodingType[encoding.toUpperCase()] || FileSystem.EncodingType.UTF8],
    for any enum object [tbl]. *)
Definition encodingFrom (tbl : jsval) (encoding : string) : jsval :=
  let v := field tbl (toUpperCase encoding) in
  if truthy v then v else field tbl "UTF8".

Definition encodingOf (encoding : string) : jsval := encodingFrom EncodingType encoding.

(** A JS parameter with default ['utf8']: [None] is an omitted argument. *)
Definition default_utf8 (encoding : option string) : string :=
  match encoding with Some e => e | None => "utf8" end.

(** ** The facade [fs] *)

Section Facade.
Context {σ : Type} (FileSystem : Host σ).

Definition readFile (path : string) (encoding : option string) : M σ string :=
  let encoding := default_utf8 encoding in
  try_catch
    (content <- readAsStringAsync FileSystem path (encodingOf encoding) ;;
     ret content)
    (fun error => throw (new_Error ("Failed to read file at " ++ path ++ ": "
                                    ++ err_message error))).

Definition writeFile (path data : string) (encoding : option string) : M σ unit :=
  let encoding := default_utf8 encoding in
  try_catch
    (writeAsStringAsync FileSystem path data (encodingOf encoding))
    (fun error => throw (new_Error ("Failed to write file at " ++ path ++ ": "
                                    ++ err_message error))).

Definition appendFile (path data : string) : M σ unit :=
  try_catch
    (existingData <- readFile path None ;;
     writeFile path (existingData ++ data) None)
    (fun error => throw (new_Error ("Failed to append file at " ++ path ++ ": "
                                    ++ err_message error))).

Definition unlink (path : string) : M σ unit :=
  try_catch
    (deleteAsync FileSystem path)
    (fun error => throw (new_Error ("Failed to delete file at " ++ path ++ ": "
                                    ++ err_message error))).

(** [catch { return false; }]: the binding-less catch. *)
Definition exists_ (path : string) : M σ jsval :=
  try_catch
    (info <- getInfoAsync FileSystem path JUndef ;;
     lift (getprop info "exists"))
    (fun _ => ret (JBool false)).

Definition rename (oldPath newPath : string) : M σ unit :=
  try_catch
    (moveAsync FileSystem oldPath newPath)
    (fun error => throw (new_Error ("Failed to rename file from " ++ oldPath ++ " to "
                                    ++ newPath ++ ": " ++ err_message error))).

(** [options = { recursive: true }]: the default applies when the argument
    is [undefined] (omitted). *)
Definition mkdir_options (options : jsval) : jsval :=
  match options with
  | JUndef => JObj [("recursive", JBool true)]
  | o => o
  end.

Definition mkdir (path : string) (options : jsval) : M σ unit :=
  let options := mkdir_options options in
  try_catch
    (recursive <- lift (getprop options "recursive") ;;
     makeDirectoryAsync FileSystem path recursive)
    (fun error => throw (new_Error ("Failed to create directory at " ++ path ++ ": "
                                    ++ err_message error))).

Definition readdir (path : string) : M σ (list string) :=
  try_catch
    (contents <- readDirectoryAsync FileSystem path ;;
     ret contents)
    (fun error => throw (new_Error ("Failed to read directory at " ++ path ++ ": "
                                    ++ err_message error))).

(** The object returned by [stat]: two closures over [info] and two fields
    read when the object is built. *)
Record stats : Type := {
  isFile : unit -> res jsval;
  isDirectory : unit -> res jsval;
  size : jsval;
  modificationTime : jsval
}.

Definition stat (path : string) : M σ stats :=
  try_catch
    (info <- getInfoAsync FileSystem path (JObj [("size", JBool true)]) ;;
     sz <- lift (getprop info "size") ;;
     mt <- lift (getprop info "modificationTime") ;;
     ret {| isFile := fun _ => getprop info "isFile";
            isDirectory := fun _ => getprop info "isDirectory";
            size := sz;
            modificationTime := mt |})
    (fun error => throw (new_Error ("Failed to retrieve stats for " ++ path ++ ": "
                                    ++ err_message error))).

Definition copyFile (srcPath destPath : string) : M σ unit :=
  try_catch
    (copyAsync FileSystem srcPath destPath)
    (fun error => throw (new_Error ("Failed to copy file from " ++ srcPath ++ " to "
                                    ++ destPath ++ ": " ++ err_message error))).

End Facade.

(** ** The pseudo-synchronous wrappers *)

(** A handler chain registered with [.then(...).catch(...)].  It runs on a
    later job of the event loop, when the host call has settled; it may
    assign the wrapper's local variable ([Some v]) and may end in an
    unhandled rejection ([Some e]). *)
Definition job (σ C : Type) : Type := σ -> option C * σ * option jserror.

(** The frame of a synchronous body: its one local variable ([None] before
    its [let]) and the jobs it has registered. *)
Record frame (σ C : Type) : Type := mkFrame { local : option C; queue : list (job σ C) }.
Arguments mkFrame {σ C} _ _.
Arguments local {σ C} _.
Arguments queue {σ C} _.

(** A synchronous body: it runs to completion on its frame. *)
Definition SM (σ C A : Type) : Type := frame σ C -> res A * frame σ C.

Definition s_let {σ C} (v : C) : SM σ C unit :=
  fun fr => (Ok tt, mkFrame (Some v) (queue fr)).

(** Reading the local: a [ReferenceError] before its declaration. *)
Definition s_get {σ C} : SM σ C C :=
  fun fr => match local fr with
            | Some v => (Ok v, fr)
            | None => (Err (mkError "ReferenceError" "Cannot access local before initialization"), fr)
            end.

(** Registering a handler chain: it is only queued, never run, by the body. *)
Definition s_schedule {σ C} (j : job σ C) : SM σ C unit :=
  fun fr => (Ok tt, mkFrame (local fr) (queue fr ++ [j])%list).

Definition s_seq {σ C A B} (m : SM σ C A) (k : SM σ C B) : SM σ C B :=
  fun fr => match m fr with
            | (Ok _, fr') => k fr'
            | (Err e, fr') => (Err e, fr')
            end.

Definition empty_frame {σ C} : frame σ C := mkFrame None [].

(** What the caller of a synchronous function sees: the value returned by
    (or the error thrown out of) the body, run on a fresh frame. *)
Definition call_sync {σ C A} (body : SM σ C A) : res A := fst (body empty_frame).

(** The event loop after the body has returned: the queued jobs run in
    order against the host state, assign the (now unreachable) local, and
    every rejection they end in is collected as unhandled. *)
Fixpoint drain {σ C} (js : list (job σ C)) (l : option C) (st : σ)
  : option C * σ * list jserror :=
  match js with
  | [] => (l, st, [])
  | j :: r =>
      let '(a, st', rej) := j st in
      let l' := match a with Some v => Some v | None => l end in
      let '(l'', st'', rejs) := drain r l' st' in
      (l'', st'', match rej with Some e => e :: rejs | None => rejs end)
  end.

Definition after_return {σ C A} (body : SM σ C A) (st : σ) : option C * σ * list jserror :=
  let fr := snd (body empty_frame) in drain (queue fr) (local fr) st.

Section Sync.
Context {σ : Type} (FileSystem : Host σ).

Definition existsSync (path : string) : SM σ jsval jsval :=
  s_seq (s_let (JBool false))                                  (* let exists = false; *)
  (s_seq (s_schedule (fun st =>
     (* FileSystem.getInfoAsync(path)
          .then(info => { exists = info.exists; })
          .catch(() => { exists = false; }) *)
     match getInfoAsync FileSystem path JUndef st with
     | (Ok info, st') =>
         match getprop info "exists" with
         | Ok v => (Some v, st', None)
         | Err _ => (Some (JBool false), st', None)
         end
     | (Err _, st') => (Some (JBool false), st', None)
     end))
   s_get).                                                      (* return exists; *)

Definition readFileSync (path : string) (encoding : option string) : SM σ string string :=
  let encoding := default_utf8 encoding in
  s_seq (s_let "")                                             (* let content = ''; *)
  (let enc := encodingOf encoding in
   s_seq (s_schedule (fun st =>
     (* FileSystem.readAsStringAsync(path, { encoding })
          .then(data => { content = data; })
          .catch((error) => { throw new Error(...); }) *)
     match readAsStringAsync FileSystem path enc st with
     | (Ok data, st') => (Some data, st', None)
     | (Err error, st') =>
         (None, st', Some (new_Error ("Failed to read file at " ++ path ++ ": "
                                      ++ err_message error)))
     end))
   s_get).                                                      (* return content; *)

End Sync.

(** ** An in-memory model of the expo host

    Used to run the facade on concrete inputs.  Paths are ['/']-separated;
    [FileSystem.getInfoAsync] answers with the fields expo documents for
    its [FileInfo]: [exists], [uri], [isDirectory], and for an existing
    entry [size] and [modificationTime].  Only the ['utf8'] encoding is
    modelled; the model host rejects any other. *)

Inductive node : Type := NFile (contents : string) | NDir.

Definition fsstate : Type := list (string * node).

Fixpoint lookup_node (p : string) (s : fsstate) : option node :=
  match s with
  | [] => None
  | (q, n) :: r => if String.eqb p q then Some n else lookup_node p r
  end.

Definition remove_node (p : string) (s : fsstate) : fsstate :=
  filter (fun e => negb (String.eqb (fst e) p)) s.

Definition put_node (p : string) (n : node) (s : fsstate) : fsstate :=
  (p, n) :: remove_node p s.

(** Split at the last ['/']: directory part and entry name. *)
Fixpoint split_last (s : string) : option (string * string) :=
  match s with
  | EmptyString => None
  | String c r =>
      match split_last r with
      | Some (d, n) => Some (String c d, n)
      | None => if Ascii.eqb c "/" then Some (EmptyString, r) else None
      end
  end.

Definition parent (p : string) : option string :=
  match split_last p with Some (d, _) => Some d | None => None end.

Definition parent_ok (p : string) (s : fsstate) : bool :=
  match parent p with
  | None => true
  | Some d => match lookup_node d s with Some NDir => true | _ => false end
  end.

(** Create [p] and its missing ancestors; [fuel] bounds the depth. *)
Fixpoint make_dirs (fuel : nat) (p : string) (s : fsstate) : option fsstate :=
  match lookup_node p s with
  | Some NDir => Some s
  | Some (NFile _) => None
  | None =>
      match parent p, fuel with
      | None, _ => Some (put_node p NDir s)
      | Some d, S f =>
          match make_dirs f d s with
          | Some s' => Some (put_node p NDir s')
          | None => None
          end
      | Some _, O => None
      end
  end.

Definition is_utf8 (enc : jsval) : bool :=
  match enc with JStr e => String.eqb e "utf8" | _ => false end.

Definition host_err {A} (msg : string) (s : fsstate) : res A * fsstate :=
  (Err (mkError "Error" msg), s).

Definition model_host : Host fsstate := {|
  readAsStringAsync := fun p enc s =>
    if is_utf8 enc then
      match lookup_node p s with
      | Some (NFile c) => (Ok c, s)
      | _ => host_err ("File '" ++ p ++ "' isn't readable.") s
      end
    else host_err "Unsupported encoding" s;
  writeAsStringAsync := fun p d enc s =>
    if is_utf8 enc then
      match lookup_node p s with
      | Some NDir => host_err ("File '" ++ p ++ "' isn't writable.") s
      | Some (NFile _) => (Ok tt, put_node p (NFile d) s)
      | None =>
          if parent_ok p s then (Ok tt, put_node p (NFile d) s)
          else host_err ("File '" ++ p ++ "' isn't writable.") s
      end
    else host_err "Unsupported encoding" s;
  deleteAsync := fun p s =>
    match lookup_node p s with
    | Some _ => (Ok tt, remove_node p s)
    | None => host_err ("File '" ++ p ++ "' could not be deleted because it could not be found") s
    end;
  getInfoAsync := fun p _ s =>
    match lookup_node p s with
    | Some (NFile c) =>
        (Ok (JObj [("exists", JBool true); ("uri", JStr p);
                   ("size", JNum (Z.of_nat (String.length c)));
                   ("isDirectory", JBool false); ("modificationTime", JNum 0)]), s)
    | Some NDir =>
        (Ok (JObj [("exists", JBool true); ("uri", JStr p); ("size", JNum 0);
                   ("isDirectory", JBool true); ("modificationTime", JNum 0)]), s)
    | None =>
        (Ok (JObj [("exists", JBool false); ("uri", JStr p);
                   ("isDirectory", JBool false)]), s)
    end;
  moveAsync := fun a b s =>
    match lookup_node a s with
    | Some n => (Ok tt, put_node b n (remove_node a s))
    | None => host_err ("File '" ++ a ++ "' could not be moved to '" ++ b ++ "'") s
    end;
  makeDirectoryAsync := fun p inter s =>
    if truthy inter then
      match make_dirs (String.length p) p s with
      | Some s' => (Ok tt, s')
      | None => host_err ("Directory '" ++ p ++ "' could not be created.") s
      end
    else
      match lookup_node p s with
      | Some _ => host_err ("Directory '" ++ p ++ "' could not be created or already exists.") s
      | None =>
          if parent_ok p s then (Ok tt, put_node p NDir s)
          else host_err ("Directory '" ++ p ++ "' could not be created or already exists.") s
      end;
  readDirectoryAsync := fun p s =>
    match lookup_node p s with
    | Some NDir =>
        (Ok (flat_map (fun e => match split_last (fst e) with
                                | Some (d, n) => if String.eqb d p then [n] else []
                                | None => []
                                end) s), s)
    | _ => host_err ("Directory '" ++ p ++ "' could not be read.") s
    end;
  copyAsync := fun a b s =>
    match lookup_node a s with
    | Some n => (Ok tt, put_node b n s)
    | None => host_err ("File '" ++ a ++ "' could not be copied to '" ++ b ++ "'.") s
    end
|}.


(** A host whose every call rejects with the message ["boom"]. *)
Definition reject {σ A} (msg : string) : M σ A := fun s => (Err (mkError "Error" msg), s).

Definition failing_host : Host unit := {|
  readAsStringAsync := fun _ _ => reject "boom";
  writeAsStringAsync := fun _ _ _ => reject "boom";
  deleteAsync := fun _ => reject "boom";
  getInfoAsync := fun _ _ => reject "boom";
  moveAsync := fun _ _ => reject "boom";
  makeDirectoryAsync := fun _ _ => reject "boom";
  readDirectoryAsync := fun _ => reject "boom";
  copyAsync := fun _ _ => reject "boom"
|}.

(** ** Host contracts

    What a well-behaved host guarantees for UTF-8 text, stated over any
    host; [model_host] satisfies them. *)

(** Reading does not change the host state. *)
Definition read_pure {σ} (FileSystem : Host σ) : Prop :=
  forall p enc s, snd (readAsStringAsync FileSystem p enc s) = s.

(** Written text reads back. *)
Definition utf8_roundtrip {σ} (FileSystem : Host σ) : Prop :=
  forall p d s s',
    writeAsStringAsync FileSystem p d (JStr "utf8") s = (Ok tt, s') ->
    readAsStringAsync FileSystem p (JStr "utf8") s' = (Ok d, s').

(** A readable file can be overwritten. *)
Definition readable_writable {σ} (FileSystem : Host σ) : Prop :=
  forall p c d s,
    fst (readAsStringAsync FileSystem p (JStr "utf8") s) = Ok c ->
    exists s', writeAsStringAsync FileSystem p d (JStr "utf8") s = (Ok tt, s').

(** ** The asynchronous operations that can throw, as one type *)

Inductive opkind : Type :=
| KRead | KWrite | KAppend | KUnlink | KRename | KMkdir | KReaddir | KStat | KCopy.

Inductive op : Type :=
| ORead (path : string) (encoding : option string)
| OWrite (path data : string) (encoding : option string)
| OAppend (path data : string)
| OUnlink (path : string)
| ORename (oldPath newPath : string)
| OMkdir (path : string) (options : jsval)
| OReaddir (path : string)
| OStat (path : string)
| OCopy (srcPath destPath : string).

Definition kind (o : op) : opkind :=
  match o with
  | ORead _ _ => KRead | OWrite _ _ _ => KWrite | OAppend _ _ => KAppend
  | OUnlink _ => KUnlink | ORename _ _ => KRename | OMkdir _ _ => KMkdir
  | OReaddir _ => KReaddir | OStat _ => KStat | OCopy _ _ => KCopy
  end.

(** The words between ["Failed to "] and the path in each message. *)
Definition phrase (k : opkind) : string :=
  match k with
  | KRead => "read file at" | KWrite => "write file at"
  | KAppend => "append file at" | KUnlink => "delete file at"
  | KRename => "rename file from" | KMkdir => "create directory at"
  | KReaddir => "read directory at" | KStat => "retrieve stats for"
  | KCopy => "copy file from"
  end.

Definition op_paths (o : op) : string :=
  match o with
  | ORead p _ | OWrite p _ _ | OAppend p _ | OUnlink p | OMkdir p _
  | OReaddir p | OStat p => p
  | ORename a b | OCopy a b => a ++ " to " ++ b
  end.

Definition op_message (o : op) (m : string) : string :=
  "Failed to " ++ phrase (kind o) ++ " " ++ op_paths o ++ ": " ++ m.

Definition forget {σ A} (m : M σ A) : M σ unit := _ <- m ;; ret tt.

Definition run_op {σ} (FileSystem : Host σ) (o : op) : M σ unit :=
  match o with
  | ORead p e => forget (readFile FileSystem p e)
  | OWrite p d e => writeFile FileSystem p d e
  | OAppend p d => appendFile FileSystem p d
  | OUnlink p => unlink FileSystem p
  | ORename a b => rename FileSystem a b
  | OMkdir p opts => mkdir FileSystem p opts
  | OReaddir p => forget (readdir FileSystem p)
  | OStat p => forget (stat FileSystem p)
  | OCopy a b => copyFile FileSystem a b
  end.

(** The body of each operation's [try] block. *)
Definition try_block {σ} (FileSystem : Host σ) (o : op) : M σ unit :=
  match o with
  | ORead p e => forget (readAsStringAsync FileSystem p (encodingOf (default_utf8 e)))
  | OWrite p d e => writeAsStringAsync FileSystem p d (encodingOf (default_utf8 e))
  | OAppend p d => existingData <- readFile FileSystem p None ;;
                   writeFile FileSystem p (existingData ++ d) None
  | OUnlink p => deleteAsync FileSystem p
  | ORename a b => moveAsync FileSystem a b
  | OMkdir p opts => recursive <- lift (getprop (mkdir_options opts) "recursive") ;;
                     makeDirectoryAsync FileSystem p recursive
  | OReaddir p => forget (readDirectoryAsync FileSystem p)
  | OStat p => forget (info <- getInfoAsync FileSystem p (JObj [("size", JBool true)]) ;;
                       sz <- lift (getprop info "size") ;;
                       lift (getprop info "modificationTime"))
  | OCopy a b => copyAsync FileSystem a b
  end.

(** The message shape "Failed to <verb> <noun> at/from <path>[ to <path>]: <m>",
    with one-word verb and noun. *)
Definition no_space (w : string) : Prop :=
  w <> "" /\ forall i, String.get i w <> Some " "%char.

Definition fixed_form (msg path : string) (path2 : option string) (m : string) : Prop :=
  exists verb noun prep,
    no_space verb /\ no_space noun /\ (prep = "at" \/ prep = "from") /\
    msg = "Failed to " ++ verb ++ " " ++ noun ++ " " ++ prep ++ " " ++ path
          ++ match path2 with Some q => " to " ++ q | None => "" end
          ++ ": " ++ m.

(** The path and its ancestors, up to [fuel] levels, as [make_dirs] walks them. *)
Fixpoint ancestors (fuel : nat) (p : string) : list string :=
  p :: match parent p, fuel with
       | Some d, S f => ancestors f d
       | _, _ => []
       end.

(** A model state is a tree: every entry's parent is a directory. *)
Definition fs_wf (s : fsstate) : Prop :=
  forall q n, lookup_node q s = Some n -> parent_ok q s = true.

(** ** Properties *)

(** Runs of the facade on the model host. *)

Example mkdir_nested_default :
  fst (mkdir model_host "a/b/c" JUndef []) = Ok tt.
Proof. reflexivity. Qed.

Example mkdir_nested_nonrec :
  fst (mkdir model_host "a/b/c" (JObj [("recursive", JBool false)]) [])
  = Err (new_Error "Failed to create directory at a/b/c: Directory 'a/b/c' could not be created or already exists.").
Proof. reflexivity. Qed.

Example append_twice :
  (let s0 := snd (writeFile model_host "f" "" None []) in
   let s1 := snd (appendFile model_host "f" "ab" s0) in
   let s2 := snd (appendFile model_host "f" "cd" s1) in
   fst (readFile model_host "f" None s2)) = Ok "abcd".
Proof. reflexivity. Qed.

(** No ASCII character upper-cases to a lower-case ['a']. *)
Lemma ascii_upper_not_a : forall c, ascii_upper c <> "a"%char.
Proof.
  intros [[] [] [] [] [] [] [] []]; vm_compute; discriminate.
Qed.

(** With expo's [EncodingType], every encoding name resolves to ['utf8']:
    only the key ["UTF8"] can be the upper-cased form of a name. *)
Lemma encodingOf_utf8 : forall e, encodingOf e = JStr "utf8".
Proof.
  intro e. unfold encodingOf, encodingFrom, EncodingType, field, assoc.
  destruct (String.eqb (toUpperCase e) "UTF8") eqn:E1; [reflexivity|].
  destruct (String.eqb (toUpperCase e) "Base64") eqn:E2; [|reflexivity].
  apply String.eqb_eq in E2. exfalso.
  destruct e as [|c1 [|c2 r]]; simpl in E2; try discriminate.
  injection E2 as _ Hc2 _. exact (ascii_upper_not_a c2 Hc2).
Qed.

(** C1: [existsSync] returns [false] and [readFileSync] returns [''] for
    every host, path and encoding: the caller's result does not depend on
    the host state at all.  When the host read fails, the rejection raised
    in [readFileSync]'s [.catch] handler surfaces only in the event loop,
    after the caller already has its [''] without any error. *)
Theorem pseudo_sync_placeholder :
  forall (σ : Type) (FileSystem : Host σ) (path : string) (encoding : option string),
    call_sync (existsSync FileSystem path) = Ok (JBool false) /\
    call_sync (readFileSync FileSystem path encoding) = Ok "" /\
    (forall st error st',
        readAsStringAsync FileSystem path (encodingOf (default_utf8 encoding)) st
          = (Err error, st') ->
        after_return (readFileSync FileSystem path encoding) st
          = (Some "", st', [new_Error ("Failed to read file at " ++ path ++ ": "
                                       ++ err_message error)])).
Proof.
  intros σ FileSystem path encoding. split; [reflexivity|]. split; [reflexivity|].
  intros st error st' Hread.
  unfold after_return, readFileSync, s_seq, s_let, s_schedule, s_get. simpl.
  rewrite Hread. reflexivity.
Qed.

(** C2: [exists] never throws; when the host's [getInfoAsync] fails it
    returns [false], and when the host answers with an info object whose
    [exists] field is a boolean, it returns that boolean. *)
Theorem exists_never_throws :
  forall (σ : Type) (FileSystem : Host σ) (path : string) (st : σ),
    (exists v st', exists_ FileSystem path st = (Ok v, st')) /\
    (forall error st', getInfoAsync FileSystem path JUndef st = (Err error, st') ->
       exists_ FileSystem path st = (Ok (JBool false), st')) /\
    (forall fs b st', getInfoAsync FileSystem path JUndef st = (Ok (JObj fs), st') ->
       assoc "exists" fs = JBool b ->
       exists_ FileSystem path st = (Ok (JBool b), st')).
Proof.
  intros σ FileSystem path st.
  unfold exists_, try_catch, bind, lift, ret.
  repeat split.
  - destruct (getInfoAsync FileSystem path JUndef st) as [[info|e] s'].
    + destruct (getprop info "exists") as [v|e]; eexists; eexists; reflexivity.
    + eexists; eexists; reflexivity.
  - intros error st' H. rewrite H. reflexivity.
  - intros fs b st' H Hb. rewrite H. simpl. rewrite Hb. reflexivity.
Qed.

(** C4: encoding resolution depends only on the upper-cased name (for any
    enum object), a name not found in [EncodingType] resolves to
    [EncodingType.UTF8] and [readFile], [writeFile] and [readFileSync] then
    behave exactly as with ['utf8'], and an omitted encoding is ['utf8']. *)
Theorem encoding_resolution :
  (forall tbl e1 e2, toUpperCase e1 = toUpperCase e2 ->
     encodingFrom tbl e1 = encodingFrom tbl e2) /\
  (forall e, field EncodingType (toUpperCase e) = JUndef ->
     encodingOf e = field EncodingType "UTF8") /\
  (forall (σ : Type) (FileSystem : Host σ) path data e st,
     field EncodingType (toUpperCase e) = JUndef ->
     readFile FileSystem path (Some e) st = readFile FileSystem path (Some "utf8") st /\
     writeFile FileSystem path data (Some e) st
       = writeFile FileSystem path data (Some "utf8") st /\
     readFileSync FileSystem path (Some e) = readFileSync FileSystem path (Some "utf8")) /\
  (forall (σ : Type) (FileSystem : Host σ) path data st,
     readFile FileSystem path None st = readFile FileSystem path (Some "utf8") st /\
     writeFile FileSystem path data None st = writeFile FileSystem path data (Some "utf8") st /\
     readFileSync FileSystem path None = readFileSync FileSystem path (Some "utf8")).
Proof.
  split; [|split; [|split]].
  - intros tbl e1 e2 H. unfold encodingFrom. rewrite H. reflexivity.
  - intros e H. unfold encodingOf, encodingFrom. rewrite H. reflexivity.
  - intros σ FileSystem path data e st H.
    assert (He : encodingOf e = encodingOf "utf8")
      by (rewrite !encodingOf_utf8; reflexivity).
    unfold readFile, writeFile, readFileSync, default_utf8.
    rewrite He. repeat split.
  - intros. repeat split.
Qed.

(** [readFile] and [writeFile] call the host with ['utf8'] whatever the
    encoding argument. *)
Lemma readFile_host :
  forall σ (FileSystem : Host σ) p e s,
    readFile FileSystem p e s =
    match readAsStringAsync FileSystem p (JStr "utf8") s with
    | (Ok c, s') => (Ok c, s')
    | (Err error, s') =>
        (Err (new_Error ("Failed to read file at " ++ p ++ ": " ++ err_message error)), s')
    end.
Proof.
  intros. unfold readFile, try_catch, bind, ret, throw. rewrite encodingOf_utf8.
  destruct (readAsStringAsync FileSystem p (JStr "utf8") s) as [[c|er] s']; reflexivity.
Qed.

Lemma writeFile_host :
  forall σ (FileSystem : Host σ) p d e s,
    writeFile FileSystem p d e s =
    match writeAsStringAsync FileSystem p d (JStr "utf8") s with
    | (Ok u, s') => (Ok u, s')
    | (Err error, s') =>
        (Err (new_Error ("Failed to write file at " ++ p ++ ": " ++ err_message error)), s')
    end.
Proof.
  intros. unfold writeFile, try_catch, throw. rewrite encodingOf_utf8.
  destruct (writeAsStringAsync FileSystem p d (JStr "utf8") s) as [[u|er] s']; reflexivity.
Qed.

Section Contract.
Context {σ : Type} (FileSystem : Host σ).
Hypothesis Hpure : read_pure FileSystem.
Hypothesis Hround : utf8_roundtrip FileSystem.
Hypothesis Hwritable : readable_writable FileSystem.

Lemma appendFile_step :
  forall p c d s,
    readAsStringAsync FileSystem p (JStr "utf8") s = (Ok c, s) ->
    exists s', appendFile FileSystem p d s = (Ok tt, s') /\
               readAsStringAsync FileSystem p (JStr "utf8") s' = (Ok (c ++ d), s').
Proof.
  intros p c d s Hr.
  destruct (Hwritable p c (c ++ d) s) as [s' Hw]; [rewrite Hr; reflexivity|].
  exists s'. split.
  - unfold appendFile, try_catch, bind.
    rewrite readFile_host, Hr, writeFile_host, Hw. reflexivity.
  - exact (Hround _ _ _ _ Hw).
Qed.

End Contract.

(** C3: [appendFile] is [readFile] (default encoding) followed by
    [writeFile] of the old contents concatenated with [data], any failure
    re-thrown as "Failed to append file at ..."; on a host that keeps
    written text, two sequential appends of [a] then [b] to a file holding
    [''] leave it holding [a ++ b]. *)
Theorem appendFile_read_then_write :
  forall (σ : Type) (FileSystem : Host σ),
    read_pure FileSystem -> utf8_roundtrip FileSystem -> readable_writable FileSystem ->
    (forall path data s,
       appendFile FileSystem path data s =
       match readFile FileSystem path None s with
       | (Ok existingData, s1) =>
           match writeFile FileSystem path (existingData ++ data) None s1 with
           | (Ok u, s2) => (Ok u, s2)
           | (Err error, s2) =>
               (Err (new_Error ("Failed to append file at " ++ path ++ ": "
                                ++ err_message error)), s2)
           end
       | (Err error, s1) =>
           (Err (new_Error ("Failed to append file at " ++ path ++ ": "
                            ++ err_message error)), s1)
       end) /\
    (forall path a b s0,
       fst (readFile FileSystem path None s0) = Ok "" ->
       exists s1 s2,
         appendFile FileSystem path a s0 = (Ok tt, s1) /\
         appendFile FileSystem path b s1 = (Ok tt, s2) /\
         readFile FileSystem path None s2 = (Ok (a ++ b), s2)).
Proof.
  intros σ FileSystem Hpure Hround Hwritable. split.
  - intros path data s. unfold appendFile, try_catch, bind, throw.
    destruct (readFile FileSystem path None s) as [[c|er] s1]; [|reflexivity].
    destruct (writeFile FileSystem path (c ++ data) None s1) as [[u|er] s2]; reflexivity.
  - intros path a b s0 H0.
    assert (Hr0 : readAsStringAsync FileSystem path (JStr "utf8") s0 = (Ok "", s0)).
    { rewrite readFile_host in H0.
      specialize (Hpure path (JStr "utf8") s0).
      destruct (readAsStringAsync FileSystem path (JStr "utf8") s0) as [[c|er] s'];
        simpl in *; subst; congruence. }
    destruct (appendFile_step FileSystem Hround Hwritable path "" a s0 Hr0) as [s1 [Ha Hr1]].
    destruct (appendFile_step FileSystem Hround Hwritable path a b s1 Hr1) as [s2 [Hb Hr2]].
    exists s1, s2. split; [exact Ha|]. split; [exact Hb|].
    rewrite readFile_host, Hr2. reflexivity.
Qed.

(** C7: on a host where UTF-8 text written reads back, [writeFile] of
    [text] with any encoding argument followed by [readFile] with the same
    argument returns [text]. *)
Theorem write_read_roundtrip :
  forall (σ : Type) (FileSystem : Host σ),
    utf8_roundtrip FileSystem ->
    forall path text (encoding : option string) s s',
      writeFile FileSystem path text encoding s = (Ok tt, s') ->
      readFile FileSystem path encoding s' = (Ok text, s').
Proof.
  intros σ FileSystem Hround path text encoding s s' Hw.
  rewrite writeFile_host in Hw.
  destruct (writeAsStringAsync FileSystem path text (JStr "utf8") s) as [[u|er] s1] eqn:E;
    [|discriminate].
  destruct u. injection Hw as ->.
  rewrite readFile_host, (Hround _ _ _ _ E). reflexivity.
Qed.

(** *** The model host meets the contracts *)

Lemma lookup_put : forall p n s, lookup_node p (put_node p n s) = Some n.
Proof. intros. simpl. rewrite String.eqb_refl. reflexivity. Qed.

Lemma model_read_pure : read_pure model_host.
Proof.
  intros p enc s. simpl.
  destruct (is_utf8 enc); [destruct (lookup_node p s) as [[c|]|]|]; reflexivity.
Qed.

Lemma model_roundtrip : utf8_roundtrip model_host.
Proof.
  intros p d s s' H. simpl in H.
  destruct (lookup_node p s) as [[c|]|] eqn:E;
    [| discriminate | destruct (parent_ok p s); [|discriminate]];
    injection H as <-; simpl; rewrite String.eqb_refl; reflexivity.
Qed.

Lemma model_readable_writable : readable_writable model_host.
Proof.
  intros p c d s H. simpl in *.
  destruct (lookup_node p s) as [[c'|]|]; [|discriminate|discriminate].
  eexists. reflexivity.
Qed.

Lemma appendFile_read_then_write_witness :
  fst (readFile model_host "f" None [("f", NFile "")]) = Ok "" /\
  exists s1 s2,
    appendFile model_host "f" "ab" [("f", NFile "")] = (Ok tt, s1) /\
    appendFile model_host "f" "cd" s1 = (Ok tt, s2) /\
    readFile model_host "f" None s2 = (Ok ("ab" ++ "cd"), s2).
Proof.
  split; [reflexivity|].
  apply (proj2 (appendFile_read_then_write fsstate model_host model_read_pure
                  model_roundtrip model_readable_writable)).
  reflexivity.
Defined.

Lemma write_read_roundtrip_witness :
  writeFile model_host "f" "hello" (Some "base64") [] = (Ok tt, [("f", NFile "hello")]) /\
  readFile model_host "f" (Some "base64") [("f", NFile "hello")]
    = (Ok "hello", [("f", NFile "hello")]).
Proof.
  split; [reflexivity|].
  apply (write_read_roundtrip fsstate model_host model_roundtrip "f" "hello" (Some "base64") []).
  reflexivity.
Defined.

(** *** Errors *)

Lemma string_app_assoc : forall a b c : string, (a ++ b) ++ c = a ++ (b ++ c).
Proof. induction a; intros; simpl; [reflexivity | rewrite IHa; reflexivity]. Qed.

Lemma las_app : forall a b : string,
  list_ascii_of_string (a ++ b) = (list_ascii_of_string a ++ list_ascii_of_string b)%list.
Proof. induction a; intros; simpl; [reflexivity | rewrite IHa; reflexivity]. Qed.

(** Case on the outcome of the next host call or property read. *)
Ltac destruct_host :=
  match goal with
  | |- context [readFile ?h ?a ?b ?c] => destruct (readFile h a b c) as [[?|?] ?]
  | |- context [writeFile ?h ?a ?b ?c ?d] => destruct (writeFile h a b c d) as [[?|?] ?]
  | |- context [readAsStringAsync ?h ?a ?b ?c] => destruct (readAsStringAsync h a b c) as [[?|?] ?]
  | |- context [writeAsStringAsync ?h ?a ?b ?c ?d] =>
      destruct (writeAsStringAsync h a b c d) as [[?|?] ?]
  | |- context [deleteAsync ?h ?a ?b] => destruct (deleteAsync h a b) as [[?|?] ?]
  | |- context [getInfoAsync ?h ?a ?b ?c] => destruct (getInfoAsync h a b c) as [[?|?] ?]
  | |- context [moveAsync ?h ?a ?b ?c] => destruct (moveAsync h a b c) as [[?|?] ?]
  | |- context [makeDirectoryAsync ?h ?a ?b ?c] =>
      destruct (makeDirectoryAsync h a b c) as [[?|?] ?]
  | |- context [readDirectoryAsync ?h ?a ?b] => destruct (readDirectoryAsync h a b) as [[?|?] ?]
  | |- context [copyAsync ?h ?a ?b ?c] => destruct (copyAsync h a b c) as [[?|?] ?]
  | |- context [getprop ?v ?k] => destruct (getprop v k) as [?|?]
  end.

(** Every operation throws exactly what its [catch] builds from the error
    its [try] block raised. *)
Lemma run_op_try :
  forall σ (FileSystem : Host σ) o s,
    run_op FileSystem o s =
    match try_block FileSystem o s with
    | (Ok _, s') => (Ok tt, s')
    | (Err e, s') => (Err (new_Error (op_message o (err_message e))), s')
    end.
Proof.
  intros σ FileSystem o s.
  destruct o; cbn [run_op try_block];
    unfold op_message; cbn [kind phrase op_paths];
    unfold forget, appendFile, readFile, writeFile, unlink, rename, mkdir, readdir,
      stat, copyFile, try_catch, bind, ret, throw, lift;
    repeat rewrite string_app_assoc; simpl;
    repeat (destruct_host; simpl);
    repeat match goal with u : unit |- _ => destruct u end;
    repeat rewrite string_app_assoc; reflexivity.
Qed.

Lemma op_message_kind :
  forall o1 o2 m1 m2, op_message o1 m1 = op_message o2 m2 -> kind o1 = kind o2.
Proof.
  intros o1 o2 m1 m2 H. unfold op_message in H.
  destruct o1, o2; simpl in H; solve [reflexivity | discriminate H].
Qed.

(** C5, counterexample: a failing [readFile] throws a plain [Error], with
    the same [name] as a failing [writeFile]; no [FileReadError] exists. *)
Lemma error_kind_not_per_operation :
  fst (readFile failing_host "f" None tt) = Err (new_Error "Failed to read file at f: boom") /\
  fst (writeFile failing_host "f" "x" None tt) = Err (new_Error "Failed to write file at f: boom") /\
  err_name (new_Error "Failed to read file at f: boom")
    = err_name (new_Error "Failed to write file at f: boom") /\
  err_name (new_Error "Failed to read file at f: boom") <> "FileReadError".
Proof. split; [reflexivity | split; [reflexivity | split; [reflexivity | discriminate]]]. Qed.

(** C5 (amended): every error thrown by an asynchronous operation other
    than [exists] is a plain [Error] whose message starts with
    "Failed to <phrase> ", and that prefix tells the operations apart: two
    errors with the same message come from operations of the same kind. *)
Theorem errors_distinguished_by_message :
  (forall (σ : Type) (FileSystem : Host σ) o s e,
     fst (run_op FileSystem o s) = Err e ->
     err_name e = "Error" /\ exists m, err_message e = op_message o m) /\
  (forall (σ1 σ2 : Type) (H1 : Host σ1) (H2 : Host σ2) o1 o2 s1 s2 e1 e2,
     fst (run_op H1 o1 s1) = Err e1 -> fst (run_op H2 o2 s2) = Err e2 ->
     err_message e1 = err_message e2 -> kind o1 = kind o2).
Proof.
  assert (Hshape : forall (σ : Type) (FileSystem : Host σ) o s e,
     fst (run_op FileSystem o s) = Err e ->
     err_name e = "Error" /\ exists m, err_message e = op_message o m).
  { intros σ FileSystem o s e H. rewrite run_op_try in H.
    destruct (try_block FileSystem o s) as [[u|e'] s']; simpl in H; [discriminate|].
    injection H as <-. split; [reflexivity | eexists; reflexivity]. }
  split; [exact Hshape|].
  intros σ1 σ2 H1 H2 o1 o2 s1 s2 e1 e2 E1 E2 Hm.
  destruct (Hshape _ _ _ _ _ E1) as [_ [m1 M1]].
  destruct (Hshape _ _ _ _ _ E2) as [_ [m2 M2]].
  apply (op_message_kind o1 o2 m1 m2). congruence.
Qed.

(** C6, counterexample: [stat]'s message has no "at"/"from" before the path. *)
Lemma stat_message_not_fixed_form :
  fst (stat failing_host "a" tt) = Err (new_Error "Failed to retrieve stats for a: boom") /\
  ~ fixed_form "Failed to retrieve stats for a: boom" "a" None "boom".
Proof.
  split; [reflexivity|].
  intros [verb [noun [prep [_ [_ [Hp Heq]]]]]].
  apply (f_equal (fun s => rev (list_ascii_of_string s))) in Heq.
  rewrite !las_app, !rev_app_distr in Heq.
  destruct Hp; subst prep; simpl in Heq; discriminate Heq.
Qed.

(** C6 (amended): every thrown error is [new Error] of
    "Failed to <phrase> <path>[ to <path2>]: " followed by the message of
    the error the [try] block raised; for one-call operations that is the
    host's message verbatim, and [appendFile] embeds the message of the
    failing inner [readFile] or [writeFile], which embeds the host's. *)
Theorem error_message_wraps_cause :
  forall (σ : Type) (FileSystem : Host σ),
    (forall o s e s', try_block FileSystem o s = (Err e, s') ->
       run_op FileSystem o s = (Err (new_Error (op_message o (err_message e))), s')) /\
    (forall o s e s', run_op FileSystem o s = (Err e, s') ->
       exists m, e = new_Error (op_message o m)) /\
    (forall p d s he s',
       readAsStringAsync FileSystem p (JStr "utf8") s = (Err he, s') ->
       appendFile FileSystem p d s
         = (Err (new_Error ("Failed to append file at " ++ p ++ ": Failed to read file at "
                            ++ p ++ ": " ++ err_message he)), s')) /\
    (forall p d s c s1 he s2,
       readAsStringAsync FileSystem p (JStr "utf8") s = (Ok c, s1) ->
       writeAsStringAsync FileSystem p (c ++ d) (JStr "utf8") s1 = (Err he, s2) ->
       appendFile FileSystem p d s
         = (Err (new_Error ("Failed to append file at " ++ p ++ ": Failed to write file at "
                            ++ p ++ ": " ++ err_message he)), s2)).
Proof.
  intros σ FileSystem. split; [|split; [|split]].
  - intros o s e s' H. rewrite run_op_try, H. reflexivity.
  - intros o s e s' H. rewrite run_op_try in H.
    destruct (try_block FileSystem o s) as [[u|e'] s'']; [discriminate|].
    injection H as <- _. eexists. reflexivity.
  - intros p d s he s' Hr. unfold appendFile, try_catch, bind, throw.
    rewrite readFile_host, Hr. reflexivity.
  - intros p d s c s1 he s2 Hr Hw. unfold appendFile, try_catch, bind, throw.
    rewrite readFile_host, Hr, writeFile_host, Hw. reflexivity.
Qed.

(** C8, counterexample: a non-recursive [mkdir] below a missing directory
    fails with a plain [Error], not a [DirectoryCreateError]. *)
Lemma mkdir_error_kind :
  fst (mkdir model_host "a/b/c" (JObj [("recursive", JBool false)]) [])
    = Err (new_Error "Failed to create directory at a/b/c: Directory 'a/b/c' could not be created or already exists.") /\
  err_name (new_Error "Failed to create directory at a/b/c: Directory 'a/b/c' could not be created or already exists.")
    <> "DirectoryCreateError".
Proof. split; [reflexivity | discriminate]. Qed.

Lemma lookup_remove_same : forall p s, lookup_node p (remove_node p s) = None.
Proof.
  intros p s. induction s as [|[q n] r IH]; simpl; [reflexivity|].
  destruct (String.eqb q p) eqn:E; simpl; [exact IH|].
  destruct (String.eqb p q) eqn:E'; [|exact IH].
  apply String.eqb_eq in E'. subst. rewrite String.eqb_refl in E. discriminate.
Qed.

Lemma lookup_remove_other :
  forall p q s, p <> q -> lookup_node p (remove_node q s) = lookup_node p s.
Proof.
  intros p q s Hne. induction s as [|[k n] r IH]; simpl; [reflexivity|].
  destruct (String.eqb k q) eqn:E; simpl.
  - apply String.eqb_eq in E. subst k.
    destruct (String.eqb p q) eqn:E'; [apply String.eqb_eq in E'; contradiction | exact IH].
  - destruct (String.eqb p k); [reflexivity | exact IH].
Qed.

Lemma lookup_put_other :
  forall p q n s, p <> q -> lookup_node p (put_node q n s) = lookup_node p s.
Proof.
  intros p q n s Hne. simpl.
  destruct (String.eqb p q) eqn:E; [apply String.eqb_eq in E; contradiction|].
  apply lookup_remove_other. exact Hne.
Qed.

Lemma split_last_len :
  forall p d n, split_last p = Some (d, n) -> String.length d < String.length p.
Proof.
  induction p as [|c r IH]; intros d n H; simpl in H; [discriminate|].
  destruct (split_last r) as [[d' n']|] eqn:E.
  - injection H as <- _. simpl. specialize (IH d' n' eq_refl). lia.
  - destruct (Ascii.eqb c "/"); [|discriminate]. injection H as <- _. simpl. lia.
Qed.

Lemma parent_len : forall p d, parent p = Some d -> String.length d < String.length p.
Proof.
  intros p d H. unfold parent in H.
  destruct (split_last p) as [[d' n]|] eqn:E; [|discriminate].
  injection H as <-. exact (split_last_len p d' n E).
Qed.

Lemma ancestors_len :
  forall f p q, In q (ancestors f p) -> String.length q <= String.length p.
Proof.
  induction f as [|f IH]; intros p q H; simpl in H.
  - destruct (parent p); destruct H as [<-|[]]; lia.
  - destruct H as [<-|H]; [lia|].
    destruct (parent p) as [d|] eqn:E; [|destruct H].
    specialize (IH d q H). pose proof (parent_len p d E). lia.
Qed.

(** In a tree-shaped state, the ancestors of a directory are directories. *)
Lemma wf_dir_ancestors :
  forall s, fs_wf s -> forall f p, lookup_node p s = Some NDir ->
    forall q, In q (ancestors f p) -> lookup_node q s = Some NDir.
Proof.
  intros s Hwf f. induction f as [|f IH]; intros p Hp q H; simpl in H.
  - destruct (parent p); destruct H as [<-|[]]; exact Hp.
  - destruct H as [<-|H]; [exact Hp|].
    destruct (parent p) as [d|] eqn:E; [|destruct H].
    pose proof (Hwf p NDir Hp) as Hok. unfold parent_ok in Hok. rewrite E in Hok.
    destruct (lookup_node d s) as [[c|]|] eqn:Ed; try discriminate.
    exact (IH d Ed q H).
Qed.

(** [make_dirs] succeeds when no entry on the path is a file, and leaves
    the path and all its ancestors directories. *)
Lemma make_dirs_spec :
  forall f p s, fs_wf s -> String.length p <= f ->
    (forall q c, In q (ancestors f p) -> lookup_node q s <> Some (NFile c)) ->
    exists s', make_dirs f p s = Some s' /\
               forall q, In q (ancestors f p) -> lookup_node q s' = Some NDir.
Proof.
  induction f as [|f IH]; intros p s Hwf Hlen Hnf.
  - destruct (lookup_node p s) as [[c|]|] eqn:Ep.
    + exfalso. apply (Hnf p c); [simpl; left; reflexivity | exact Ep].
    + exists s. cbn [make_dirs]. rewrite Ep. split; [reflexivity|].
      exact (wf_dir_ancestors s Hwf 0 p Ep).
    + destruct (parent p) as [d|] eqn:Ed.
      * pose proof (parent_len p d Ed). lia.
      * exists (put_node p NDir s). cbn [make_dirs]. rewrite Ep, Ed. split; [reflexivity|].
        intros q Hq. cbn [ancestors] in Hq. rewrite Ed in Hq.
        destruct Hq as [<-|[]]. apply lookup_put.
  - destruct (lookup_node p s) as [[c|]|] eqn:Ep.
    + exfalso. apply (Hnf p c); [simpl; left; reflexivity | exact Ep].
    + exists s. cbn [make_dirs]. rewrite Ep. split; [reflexivity|].
      exact (wf_dir_ancestors s Hwf (S f) p Ep).
    + destruct (parent p) as [d|] eqn:Ed.
      * pose proof (parent_len p d Ed) as Hd.
        destruct (IH d s Hwf) as [s1 [Hm Hdirs]]; [lia| |].
        { intros q c Hq. apply Hnf. cbn [ancestors]. rewrite Ed. right. exact Hq. }
        exists (put_node p NDir s1). cbn [make_dirs]. rewrite Ep, Ed, Hm. split; [reflexivity|].
        intros q Hq. cbn [ancestors] in Hq. rewrite Ed in Hq. destruct Hq as [<-|Hq].
        -- apply lookup_put.
        -- pose proof (ancestors_len f d q Hq).
           rewrite lookup_put_other by (intro; subst; lia). exact (Hdirs q Hq).
      * exists (put_node p NDir s). cbn [make_dirs]. rewrite Ep, Ed. split; [reflexivity|].
        intros q Hq. cbn [ancestors] in Hq. rewrite Ed in Hq. destruct Hq as [<-|[]]. apply lookup_put.
Qed.

(** C8 (amended): an omitted [options] is [{ recursive: true }]; for any
    options object [mkdir] passes its [recursive] field to the host as
    [intermediates], succeeds exactly when the host call does, and
    otherwise throws a plain [Error]
    "Failed to create directory at <path>: <host message>".  On the expo
    model (a tree-shaped state), the default call on any path with no file
    along it succeeds and leaves the path and every ancestor a directory,
    and a [recursive: false] call whose parent is missing fails. *)
Theorem mkdir_recursive_default :
  (forall (σ : Type) (FileSystem : Host σ) path s,
     mkdir FileSystem path JUndef s
     = mkdir FileSystem path (JObj [("recursive", JBool true)]) s) /\
  (forall (σ : Type) (FileSystem : Host σ) path fs s,
     mkdir FileSystem path (JObj fs) s =
     match makeDirectoryAsync FileSystem path (assoc "recursive" fs) s with
     | (Ok u, s') => (Ok u, s')
     | (Err error, s') =>
         (Err (new_Error ("Failed to create directory at " ++ path ++ ": "
                          ++ err_message error)), s')
     end) /\
  (forall path s, fs_wf s ->
     (forall q c, In q (ancestors (String.length path) path) -> lookup_node q s <> Some (NFile c)) ->
     exists s', mkdir model_host path JUndef s = (Ok tt, s') /\
       forall q, In q (ancestors (String.length path) path) -> lookup_node q s' = Some NDir) /\
  (forall path d s, parent path = Some d -> lookup_node d s = None ->
     mkdir model_host path (JObj [("recursive", JBool false)]) s =
       (Err (new_Error ("Failed to create directory at " ++ path ++ ": Directory '" ++ path
                        ++ "' could not be created or already exists.")), s)).
Proof.
  split; [|split; [|split]].
  - intros. reflexivity.
  - intros σ FileSystem path fs s.
    unfold mkdir, try_catch, bind, lift, throw. simpl.
    destruct (makeDirectoryAsync FileSystem path (assoc "recursive" fs) s) as [[u|e] s'];
      reflexivity.
  - intros path s Hwf Hnf.
    destruct (make_dirs_spec (String.length path) path s Hwf (le_n _) Hnf) as [s' [Hm Hd]].
    exists s'. split; [|exact Hd].
    unfold mkdir, try_catch, bind, lift. simpl. rewrite Hm. reflexivity.
  - intros path d s Hp Hd.
    unfold mkdir, try_catch, bind, lift, throw. simpl.
    destruct (lookup_node path s); [reflexivity|].
    unfold parent_ok. rewrite Hp, Hd. reflexivity.
Qed.

Lemma mkdir_recursive_default_witness :
  fs_wf [("a", NDir)] /\
  (exists s', mkdir model_host "a/b/c" JUndef [("a", NDir)] = (Ok tt, s') /\
     forall q, In q (ancestors (String.length "a/b/c") "a/b/c") -> lookup_node q s' = Some NDir) /\
  mkdir model_host "x/y" (JObj [("recursive", JBool false)]) [("a", NDir)] =
    (Err (new_Error "Failed to create directory at x/y: Directory 'x/y' could not be created or already exists."),
     [("a", NDir)]).
Proof.
  assert (Hwf : fs_wf [("a", NDir)]).
  { intros q n H. simpl in H. destruct (String.eqb q "a") eqn:E; [|discriminate].
    apply String.eqb_eq in E. subst. reflexivity. }
  split; [exact Hwf | split].
  - apply (proj1 (proj2 (proj2 mkdir_recursive_default)) "a/b/c" [("a", NDir)] Hwf).
    intros q c Hq. simpl in Hq.
    destruct Hq as [<-|[<-|[<-|[]]]]; discriminate.
  - apply (proj2 (proj2 (proj2 mkdir_recursive_default)) "x/y" "x" [("a", NDir)]);
      reflexivity.
Defined.

(** C10: with any options object lacking a [recursive] field (e.g. [{}])
    the host receives [intermediates: undefined], while an omitted argument
    gives [true]; on the expo model such an object behaves as
    [{ recursive: false }]. *)
Theorem mkdir_empty_options :
  forall fs, assoc "recursive" fs = JUndef ->
  (forall (σ : Type) (FileSystem : Host σ) path s,
     mkdir FileSystem path (JObj fs) s =
     match makeDirectoryAsync FileSystem path JUndef s with
     | (Ok u, s') => (Ok u, s')
     | (Err error, s') =>
         (Err (new_Error ("Failed to create directory at " ++ path ++ ": "
                          ++ err_message error)), s')
     end) /\
  (forall (σ : Type) (FileSystem : Host σ) path s,
     mkdir FileSystem path JUndef s =
     match makeDirectoryAsync FileSystem path (JBool true) s with
     | (Ok u, s') => (Ok u, s')
     | (Err error, s') =>
         (Err (new_Error ("Failed to create directory at " ++ path ++ ": "
                          ++ err_message error)), s')
     end) /\
  (forall path s,
     mkdir model_host path (JObj fs) s
     = mkdir model_host path (JObj [("recursive", JBool false)]) s).
Proof.
  intros fs Hfs. split; [|split].
  - intros σ FileSystem path s. unfold mkdir, try_catch, bind, lift, throw.
    cbn [mkdir_options getprop]. rewrite Hfs.
    destruct (makeDirectoryAsync FileSystem path JUndef s) as [[u|e] s']; reflexivity.
  - intros σ FileSystem path s. unfold mkdir, try_catch, bind, lift, throw. simpl.
    destruct (makeDirectoryAsync FileSystem path (JBool true) s) as [[u|e] s']; reflexivity.
  - intros path s. unfold mkdir, try_catch, bind, lift, throw.
    cbn [mkdir_options getprop]. rewrite Hfs. reflexivity.
Qed.

Lemma mkdir_empty_options_witness :
  assoc "recursive" [("mode", JNum 511)] = JUndef /\
  mkdir model_host "a/b" (JObj [("mode", JNum 511)]) []
    = mkdir model_host "a/b" (JObj [("recursive", JBool false)]) [].
Proof.
  split; [reflexivity|].
  apply (proj2 (proj2 (mkdir_empty_options [("mode", JNum 511)] eq_refl))).
Defined.

(** C9 (code defect): on the expo model, [stat] of a freshly written
    3-byte file reports size 3 and [isDirectory() === false], but
    [isFile()] is [undefined]: expo's [FileInfo] has no [isFile] field. *)
Theorem stat_isFile_undefined :
  exists st,
    fst (stat model_host "f" (snd (writeFile model_host "f" "abc" None []))) = Ok st /\
    isFile st tt = Ok JUndef /\
    isDirectory st tt = Ok (JBool false) /\
    size st = JNum 3 /\
    modificationTime st = JNum 0.
Proof. eexists. repeat split; reflexivity. Qed.


(** ** Further properties of the facade *)

(** The handler chain [existsSync] leaves behind computes exactly what
    [exists] would have returned, in the same host state, and never ends in
    an unhandled rejection; the value only reaches the unreachable local. *)
Theorem existsSync_job_is_exists :
  forall (σ : Type) (FileSystem : Host σ) path st,
    after_return (existsSync FileSystem path) st =
    match exists_ FileSystem path st with
    | (Ok v, st') => (Some v, st', [])
    | (Err _, st') => (None, st', [])
    end.
Proof.
  intros σ FileSystem path st.
  unfold after_return, existsSync, exists_, s_seq, s_let, s_schedule, s_get,
    try_catch, bind, lift, ret. simpl.
  destruct (getInfoAsync FileSystem path JUndef st) as [[info|e] st']; simpl; [|reflexivity].
  destruct (getprop info "exists"); reflexivity.
Qed.

(** The handler chain [readFileSync] leaves behind reads what [readFile]
    would have returned; when [readFile] would have thrown, the very same
    error becomes an unhandled rejection and the local keeps ['']. *)
Theorem readFileSync_job_is_readFile :
  forall (σ : Type) (FileSystem : Host σ) path encoding st,
    after_return (readFileSync FileSystem path encoding) st =
    match readFile FileSystem path encoding st with
    | (Ok c, st') => (Some c, st', [])
    | (Err e, st') => (Some "", st', [e])
    end.
Proof.
  intros σ FileSystem path encoding st.
  unfold after_return, readFileSync, readFile, s_seq, s_let, s_schedule, s_get,
    try_catch, bind, ret, throw. simpl.
  destruct (readAsStringAsync FileSystem path (encodingOf (default_utf8 encoding)) st)
    as [[c|e] st']; reflexivity.
Qed.

(** An encoding of ['base64'] (in any case) cannot be selected: the host
    always receives [EncodingType.UTF8], so [readFile], [writeFile] and
    [readFileSync] with ['base64'] behave as with no encoding. *)
Theorem base64_not_selectable :
  (forall e, encodingOf e = field EncodingType "UTF8") /\
  (forall (σ : Type) (FileSystem : Host σ) path data st,
     readFile FileSystem path (Some "base64") st = readFile FileSystem path None st /\
     writeFile FileSystem path data (Some "base64") st = writeFile FileSystem path data None st /\
     readFileSync FileSystem path (Some "BASE64") = readFileSync FileSystem path None).
Proof.
  split.
  - intro e. rewrite encodingOf_utf8. reflexivity.
  - intros. unfold readFile, writeFile, readFileSync, default_utf8.
    rewrite !(encodingOf_utf8 "base64"), (encodingOf_utf8 "BASE64"), (encodingOf_utf8 "utf8").
    repeat split.
Qed.


(** [stat] never looks at [info.exists]: whenever the host answers with an
    object, [stat] resolves, copying [size] and [modificationTime] and
    answering [isFile()]/[isDirectory()] from the same snapshot; if the host
    resolves with [null] it throws the wrapped [TypeError] on [size]. *)
Theorem stat_copies_info :
  forall (σ : Type) (FileSystem : Host σ) path s,
    (forall fs s',
       getInfoAsync FileSystem path (JObj [("size", JBool true)]) s = (Ok (JObj fs), s') ->
       exists st, stat FileSystem path s = (Ok st, s') /\
         size st = assoc "size" fs /\
         modificationTime st = assoc "modificationTime" fs /\
         isFile st tt = Ok (assoc "isFile" fs) /\
         isDirectory st tt = Ok (assoc "isDirectory" fs)) /\
    (forall s',
       getInfoAsync FileSystem path (JObj [("size", JBool true)]) s = (Ok JNull, s') ->
       stat FileSystem path s =
         (Err (new_Error ("Failed to retrieve stats for " ++ path
                          ++ ": Cannot read properties of null (reading 'size')")), s')).
Proof.
  intros σ FileSystem path s. split.
  - intros fs s' H. unfold stat, try_catch, bind, lift, ret. rewrite H. simpl.
    eexists. repeat split.
  - intros s' H. unfold stat, try_catch, bind, lift, ret, throw. rewrite H. reflexivity.
Qed.

(** [exists] returns [info.exists] as the host gives it, with no boolean
    coercion: [undefined] when the info object has no [exists] field, and
    [false] when the host resolves with [null] (the [TypeError] is caught). *)
Theorem exists_returns_field_verbatim :
  forall (σ : Type) (FileSystem : Host σ) path s,
    (forall fs s', getInfoAsync FileSystem path JUndef s = (Ok (JObj fs), s') ->
       exists_ FileSystem path s = (Ok (assoc "exists" fs), s')) /\
    (forall s', getInfoAsync FileSystem path JUndef s = (Ok JNull, s') ->
       exists_ FileSystem path s = (Ok (JBool false), s')).
Proof.
  intros σ FileSystem path s. split.
  - intros fs s' H. unfold exists_, try_catch, bind, lift. rewrite H. reflexivity.
  - intros s' H. unfold exists_, try_catch, bind, lift, ret. rewrite H. reflexivity.
Qed.

(** *** The facade on the model host *)

(** Unlike Node's [appendFile], appending to a path that does not exist
    fails (the inner [readFile] fails) and does not create the file. *)
Theorem appendFile_missing_file :
  forall p d s, lookup_node p s = None ->
    appendFile model_host p d s =
      (Err (new_Error ("Failed to append file at " ++ p ++ ": Failed to read file at "
                       ++ p ++ ": File '" ++ p ++ "' isn't readable.")), s).
Proof.
  intros p d s H. unfold appendFile, try_catch, bind, throw.
  rewrite readFile_host. simpl. rewrite H. reflexivity.
Qed.

Lemma appendFile_missing_file_witness :
  lookup_node "x" [("y", NFile "")] = None /\
  appendFile model_host "x" "d" [("y", NFile "")] =
    (Err (new_Error "Failed to append file at x: Failed to read file at x: File 'x' isn't readable."),
     [("y", NFile "")]).
Proof. split; [reflexivity | apply (appendFile_missing_file "x" "d" [("y", NFile "")]); reflexivity]. Defined.

(** After a successful [unlink], [exists] answers [false]. *)
Theorem unlink_then_exists :
  forall p s s', unlink model_host p s = (Ok tt, s') ->
    exists_ model_host p s' = (Ok (JBool false), s').
Proof.
  intros p s s' H. unfold unlink, try_catch, throw in H. simpl in H.
  destruct (lookup_node p s); [|discriminate].
  injection H as <-.
  unfold exists_, try_catch, bind, lift. simpl. rewrite lookup_remove_same. reflexivity.
Qed.

Lemma unlink_then_exists_witness :
  unlink model_host "f" [("f", NFile "abc")] = (Ok tt, []) /\
  exists_ model_host "f" [] = (Ok (JBool false), []).
Proof. split; [reflexivity | apply (unlink_then_exists "f" [("f", NFile "abc")]); reflexivity]. Defined.

(** [copyFile] leaves the source readable with its contents and makes the
    destination read the same contents. *)
Theorem copyFile_keeps_source :
  forall a b c s s', lookup_node a s = Some (NFile c) ->
    copyFile model_host a b s = (Ok tt, s') ->
    fst (readFile model_host a None s') = Ok c /\ fst (readFile model_host b None s') = Ok c.
Proof.
  intros a b c s s' Ha H. unfold copyFile, try_catch, throw in H. simpl in H.
  rewrite Ha in H. injection H as <-.
  rewrite !readFile_host. simpl. rewrite String.eqb_refl.
  destruct (String.eqb a b) eqn:E; [split; reflexivity|].
  rewrite lookup_remove_other by (intro; subst; rewrite String.eqb_refl in E; discriminate).
  rewrite Ha. split; reflexivity.
Qed.

Lemma copyFile_keeps_source_witness :
  lookup_node "a" [("a", NFile "hi")] = Some (NFile "hi") /\
  copyFile model_host "a" "b" [("a", NFile "hi")] = (Ok tt, [("b", NFile "hi"); ("a", NFile "hi")]) /\
  fst (readFile model_host "a" None [("b", NFile "hi"); ("a", NFile "hi")]) = Ok "hi" /\
  fst (readFile model_host "b" None [("b", NFile "hi"); ("a", NFile "hi")]) = Ok "hi".
Proof.
  split; [reflexivity | split; [reflexivity|]].
  apply (copyFile_keeps_source "a" "b" "hi" [("a", NFile "hi")]); reflexivity.
Defined.

(** [rename] to a different path moves the contents: the new path reads
    them and the old path no longer exists. *)
Theorem rename_moves_file :
  forall a b c s s', a <> b -> lookup_node a s = Some (NFile c) ->
    rename model_host a b s = (Ok tt, s') ->
    fst (readFile model_host b None s') = Ok c /\
    fst (exists_ model_host a s') = Ok (JBool false).
Proof.
  intros a b c s s' Hne Ha H. unfold rename, try_catch, throw in H. simpl in H.
  rewrite Ha in H. injection H as <-. split.
  - rewrite readFile_host. simpl. rewrite String.eqb_refl. reflexivity.
  - unfold exists_, try_catch, bind, lift.
    cbn [model_host getInfoAsync].
    rewrite lookup_put_other by exact Hne. rewrite lookup_remove_same. reflexivity.
Qed.

Lemma rename_moves_file_witness :
  ("a" <> "b") /\ lookup_node "a" [("a", NFile "hi")] = Some (NFile "hi") /\
  rename model_host "a" "b" [("a", NFile "hi")] = (Ok tt, [("b", NFile "hi")]) /\
  fst (readFile model_host "b" None [("b", NFile "hi")]) = Ok "hi" /\
  fst (exists_ model_host "a" [("b", NFile "hi")]) = Ok (JBool false).
Proof.
  split; [discriminate | split; [reflexivity | split; [reflexivity|]]].
  apply (rename_moves_file "a" "b" "hi" [("a", NFile "hi")]);
    [discriminate | reflexivity | reflexivity].
Defined.
